(** * check_cm_service: a Nagios check for Cloudera Manager services

    Shallow embedding of [examples/check_cm_service.py].  The script parses
    its command line, fills in the default port, warns about old API
    versions, asks for missing credentials, opens a session with the
    manager, fetches one service and reduces its health record to a Nagios
    status line and exit code.

    Python values are modelled as follows: [int] as [Z], [str] as [string],
    a value that may be [None] as an [option], the two module-level [dict]s
    as [gmap]s, the list of health checks as a [list].  Printing, reading
    the terminal, the global [api] handle and the remote manager are
    threaded through an explicit world; exceptions are results. *)

From Stdlib Require Import ZArith.
From stdpp Require Import gmap strings list pretty.

Local Open Scope Z_scope.

(** ** Module-level configuration (lines 45-65) *)

Definition DEFAULT_HTTP_PORT : Z := 7180.
Definition DEFAULT_HTTPS_PORT : Z := 7183.
Definition MINIMUM_SUPPORTED_API_VERSION : Z := 12.

Definition EXIT_OK : Z := 0.
Definition EXIT_WARNING : Z := 1.
Definition EXIT_CRITICAL : Z := 2.
Definition EXIT_UNKNOWN : Z := 3.

Definition NAGIOS_CODE_MESSAGES : gmap Z string :=
  list_to_map [ (EXIT_OK, "OK");
                (EXIT_WARNING, "WARNING");
                (EXIT_CRITICAL, "CRITICAL");
                (EXIT_UNKNOWN, "UNKNOWN") ].

Definition CM_STATE_CODES : gmap string Z :=
  list_to_map [ ("HISTORY_NOT_AVAILABLE", EXIT_UNKNOWN);
                ("NOT_AVAILABLE", EXIT_UNKNOWN);
                ("DISABLED", EXIT_UNKNOWN);
                ("GOOD", EXIT_OK);
                ("CONCERNING", EXIT_WARNING);
                ("BAD", EXIT_CRITICAL) ].

(** ** Python values *)

(** Truth value of an [int], of an optional [int], of an optional [str]:
    [0], [None] and the empty string are false. *)
Definition truthy_int (n : Z) : bool := negb (n =? 0).

Definition truthy_opt_int (o : option Z) : bool :=
  match o with
  | None => false
  | Some n => truthy_int n
  end.

Definition truthy_opt_str (o : option string) : bool :=
  match o with
  | None => false
  | Some s => negb (String.eqb s "")
  end.

(** A dictionary key, as reported by a failed subscript. *)
Inductive Key :=
| StrKey (s : string)
| IntKey (n : Z).

Inductive Exception :=
| KeyError (k : Key)
| EOFError
| AttributeError
| ApiException (msg : string)
| SystemExit (code : Z).

(** The outcome of evaluating a piece of code: a value or a raised
    exception. *)
Inductive Result (A : Type) :=
| Return (a : A)
| Raise (e : Exception).
Arguments Return {A} a.
Arguments Raise {A} e.

Global Instance Result_ret : MRet Result := @Return.
Global Instance Result_bind : MBind Result := λ A B f r,
  match r with
  | Return a => f a
  | Raise e => Raise e
  end.

(** Subscripts [d[k]] on the two tables: [KeyError] when the key is absent. *)
Definition getitem_str {V} (d : gmap string V) (k : string) : Result V :=
  match d !! k with
  | Some v => Return v
  | None => Raise (KeyError (StrKey k))
  end.

Definition getitem_int {V} (d : gmap Z V) (k : Z) : Result V :=
  match d !! k with
  | Some v => Return v
  | None => Raise (KeyError (IntKey k))
  end.

(** ** Data *)

(** The namespace returned by [parser.parse_args()] (lines 107-134).
    [port], [username] and [password] have no default and are [None] when
    the flag is absent; [api_version] defaults to
    [MINIMUM_SUPPORTED_API_VERSION] and [use_tls] to [False], so they always
    hold a value. *)
Record Args := mkArgs {
  hostname : string;
  port : option Z;
  username : option string;
  password : option string;
  api_version : Z;
  use_tls : bool;
  cluster : string;
  service : string
}.

Definition set_port (p : Z) (a : Args) : Args :=
  mkArgs (hostname a) (Some p) (username a) (password a)
         (api_version a) (use_tls a) (cluster a) (service a).

Definition set_username (u : string) (a : Args) : Args :=
  mkArgs (hostname a) (port a) (Some u) (password a)
         (api_version a) (use_tls a) (cluster a) (service a).

Definition set_password (p : string) (a : Args) : Args :=
  mkArgs (hostname a) (port a) (username a) (Some p)
         (api_version a) (use_tls a) (cluster a) (service a).

(** The keyword arguments the session object is built from (line 76). *)
Record ApiResource := mkApiResource {
  server_host : string;
  server_port : option Z;
  api_username : option string;
  api_password : option string;
  version : Z;
  api_use_tls : bool
}.

(** One entry of [healthChecks]; the script reads its ['name'] and
    ['summary']. *)
Record HealthCheck := mkHealthCheck {
  chk_name : string;
  chk_summary : string
}.

(** The attributes of the service object the script reads. *)
Record Service := mkService {
  name : string;
  healthSummary : string;
  healthChecks : list HealthCheck
}.

(** ** The world the script runs in *)

Section World.
(** [Srv] is the state of the remote manager as the client library sees
    it. *)
Context {Srv : Type}.

Record World := mkWorld {
  stdin : list string;          (* lines still to be typed at the terminal *)
  stdout : list string;         (* lines printed so far, oldest first *)
  api : option ApiResource;     (* the global [api], [None] at start *)
  server : Srv
}.

Definition M (A : Type) : Type := World → Result A * World.

Definition ret {A} (a : A) : M A := λ w, (Return a, w).

(** Sequencing: a raised exception skips the rest, the effects made so
    far stay. *)
Definition bind {A B} (m : M A) (k : A → M B) : M B := λ w,
  match m w with
  | (Return a, w') => k a w'
  | (Raise e, w') => (Raise e, w')
  end.

Definition raise {A} (e : Exception) : M A := λ w, (Raise e, w).

Definition lift {A} (r : Result A) : M A := λ w, (r, w).

(** The world after one more line has been printed. *)
Definition printed (w : World) (s : string) : World :=
  mkWorld (stdin w) (stdout w ++ [s]) (api w) (server w).

(** [print s] *)
Definition print (s : string) : M unit := λ w, (Return tt, printed w s).

(** [raw_input(prompt)] and [getpass.getpass(prompt)]: the next line of
    the terminal, [EOFError] at end of input.  The prompt itself is not
    part of the printed lines. *)
Definition read_line : M string := λ w,
  match stdin w with
  | [] => (Raise EOFError, w)
  | l :: rest => (Return l, mkWorld rest (stdout w) (api w) (server w))
  end.

Definition raw_input (prompt : string) : M string := read_line.
Definition getpass (prompt : string) : M string := read_line.

(** [sys.exit(code)] *)
Definition sys_exit (code : Z) : M unit := raise (SystemExit code).
End World.
Arguments World : clear implicits.
Arguments M : clear implicits.

Declare Scope py_scope.
Delimit Scope py_scope with py.
Notation "'do' x <- m ; k" := (bind m (λ x, k))
  (at level 10, x name, m at level 100, k at level 200,
   format "'[v' 'do'  x  <-  m ; '/' k ']'") : py_scope.
Notation "'run' m ; k" := (bind m (λ _, k))
  (at level 10, m at level 100, k at level 200,
   format "'[v' 'run'  m ; '/' k ']'") : py_scope.
Local Open Scope py_scope.

(** ** The functions of the script *)

(** [initialize_api] (lines 70-78): stores a new session in the global. *)
Definition initialize_api {Srv} (args : Args) : M Srv unit := λ w,
  (Return tt,
   mkWorld (stdin w) (stdout w)
           (Some (mkApiResource (hostname args) (port args) (username args)
                                (password args) (api_version args)
                                (use_tls args)))
           (server w)).

(** The text printed by [validate_api_compatibility]. *)
Definition api_version_message (v : Z) : string :=
  "ERROR: Given API version: " +:+ pretty v +:+
  ". Minimum supported API version: " +:+ pretty MINIMUM_SUPPORTED_API_VERSION.

(** [validate_api_compatibility] (lines 80-87) *)
Definition validate_api_compatibility {Srv} (args : Args) : M Srv unit :=
  if truthy_int (api_version args)
     && (api_version args <? MINIMUM_SUPPORTED_API_VERSION)
  then print (api_version_message (api_version args))
  else ret tt.

(** [get_login_credentials] (lines 90-99).  The source updates [args] in
    place; here the updated namespace is returned. *)
Definition get_login_credentials {Srv} (args : Args) : M Srv Args :=
  do args <- (if negb (truthy_opt_str (username args))
              then do u <- raw_input "Enter Username: "; ret (set_username u args)
              else ret args);
  if negb (truthy_opt_str (password args))
  then do p <- getpass "Enter Password: "; ret (set_password p args)
  else ret args.

(** Lines 137-141 of [main]: use the default port if required. *)
Definition main_default_port (args : Args) : Args :=
  if negb (truthy_opt_int (port args))
  then if use_tls args
       then set_port DEFAULT_HTTPS_PORT args
       else set_port DEFAULT_HTTP_PORT args
  else args.

(** ["%s (%s) " % (chk['name'], chk['summary'])] *)
Definition format_check (chk : HealthCheck) : string :=
  chk_name chk +:+ " (" +:+ chk_summary chk +:+ ") ".

(** [x != "GOOD" and x != "DISABLED"] *)
Definition not_good_nor_disabled (x : string) : bool :=
  negb (String.eqb x "GOOD") && negb (String.eqb x "DISABLED").

(** The body of the [for] loop of lines 165-167, and the loop. *)
Definition append_check (status : string) (chk : HealthCheck) : string :=
  if not_good_nor_disabled (chk_summary chk)
  then status +:+ format_check chk
  else status.

Definition append_checks (status : string) (check : list HealthCheck) : string :=
  fold_left append_check check status.
Global Arguments append_checks : simpl never.

(** ["%s: %s is %s" % (label, name, summary)] *)
Definition format_status (label name summary : string) : string :=
  label +:+ ": " +:+ name +:+ " is " +:+ summary.

(** Lines 153-169 of [main]: the reduction of the fetched service [s] to
    the pair [(status, code)]. *)
Definition main_status (s : Service) : Result (string * Z) :=
  let summary := healthSummary s in
  let check := healthChecks s in
  '(status, code) ←
    (if String.eqb (healthSummary s) "CONCERNING"
     then
       good ← getitem_str CM_STATE_CODES "GOOD";
       label ← getitem_int NAGIOS_CODE_MESSAGES good;
       code ← getitem_str CM_STATE_CODES "GOOD";
       mret (format_status label (name s) summary, code)
     else
       c ← getitem_str CM_STATE_CODES summary;
       label ← getitem_int NAGIOS_CODE_MESSAGES c;
       code ← getitem_str CM_STATE_CODES summary;
       mret (format_status label (name s) summary, code));
  let status :=
    if not_good_nor_disabled (healthSummary s)
    then append_checks (status +:+ " - ") check
    else status in
  mret (status, code).

Section Script.
(** The two calls of the client library the script makes; the library is
    not part of the script.  They may fail and may change the state of
    the manager, but do not touch the terminal. *)
Context {Srv Cluster : Type}.
Variable get_cluster : ApiResource → string → Srv → Result Cluster * Srv.
Variable get_service : Cluster → string → Srv → Result Service * Srv.

(** A call of the library in the world. *)
Definition remote {A} (call : Srv → Result A * Srv) : M Srv A := λ w,
  let '(r, srv) := call (server w) in
  (r, mkWorld (stdin w) (stdout w) (api w) srv).

(** [api.get_cluster(name)] on the global [api]. *)
Definition api_get_cluster (cluster_name : string) : M Srv Cluster := λ w,
  match api w with
  | None => (Raise AttributeError, w)
  | Some a => remote (get_cluster a cluster_name) w
  end.

(** Lines 144-151 of [main]: credentials, session, cluster, service. *)
Definition main_connect (args : Args) : M Srv Service :=
  do args <- get_login_credentials args;
  run initialize_api args;
  do c <- api_get_cluster (cluster args);
  remote (get_service c (service args)).

(** Lines 137-151 of [main]: from the parsed arguments to the fetched
    service object. *)
Definition main_fetch (args : Args) : M Srv Service :=
  let args := main_default_port args in
  run validate_api_compatibility args;
  main_connect args.

(** [main] (lines 101-169), from the parsed arguments on. *)
Definition main (args : Args) : M Srv (string * Z) :=
  do s <- main_fetch args;
  lift (main_status s).

(** The [__main__] block (lines 173-175); every call of [main] parses
    the same command line. *)
Definition script (args : Args) : M Srv unit :=
  do r <- main args;
  run print r.1;
  do r' <- main args;
  sys_exit r'.2.
End Script.

(** The exit status of the process: the argument of [sys.exit], 1 for any
    other uncaught exception, 0 when the script runs to its end. *)
Definition exit_status (r : Result unit) : Z :=
  match r with
  | Return _ => 0
  | Raise (SystemExit code) => code
  | Raise _ => 1
  end.

(** ** A manager for examples

    The manager's state is the queue of the answers it will give to the
    next service requests; every cluster name is known to it. *)
Definition queue_get_cluster (a : ApiResource) (cluster_name : string)
    (srv : list Service) : Result string * list Service :=
  (Return cluster_name, srv).

Definition queue_get_service (c : string) (service_name : string)
    (srv : list Service) : Result Service * list Service :=
  match srv with
  | [] => (Raise (ApiException "not found"), [])
  | s :: rest => (Return s, rest)
  end.

Definition queue_main := main queue_get_cluster queue_get_service.
Definition queue_main_fetch := main_fetch queue_get_cluster queue_get_service.
Definition queue_script := script queue_get_cluster queue_get_service.

(** A world with nothing typed, nothing printed and no session yet. *)
Definition fresh_world {Srv} (srv : Srv) : World Srv := mkWorld [] [] None srv.

(** Arguments with a user and a password, no port, the default API
    version, no TLS. *)
Definition example_args : Args :=
  mkArgs "cm.example.com" None (Some "admin") (Some "secret")
         MINIMUM_SUPPORTED_API_VERSION false "cluster1" "hdfs".

Definition example_args_version (v : Z) : Args :=
  mkArgs "cm.example.com" None (Some "admin") (Some "secret")
         v false "cluster1" "hdfs".

Definition example_args_port (p : option Z) (tls : bool) : Args :=
  mkArgs "cm.example.com" p (Some "admin") (Some "secret")
         MINIMUM_SUPPORTED_API_VERSION tls "cluster1" "hdfs".

(** The world [example_args] leave behind after one fetch from a manager
    with a single answer. *)
Definition example_session : ApiResource :=
  mkApiResource "cm.example.com" (Some DEFAULT_HTTP_PORT) (Some "admin")
                (Some "secret") MINIMUM_SUPPORTED_API_VERSION false.

Definition example_after : World (list Service) :=
  mkWorld [] [] (Some example_session) [].

Definition hdfs_checks : list HealthCheck :=
  [ mkHealthCheck "DATANODES_HEALTHY" "BAD";
    mkHealthCheck "NAMENODE_UPTIME" "GOOD" ].

Definition concerning_checks : list HealthCheck :=
  [ mkHealthCheck "HDFS_FREE_SPACE_MONITORING" "CONCERNING";
    mkHealthCheck "NAMENODE_UPTIME" "GOOD" ].

Definition good_checks : list HealthCheck :=
  [ mkHealthCheck "DATANODES_HEALTHY" "GOOD";
    mkHealthCheck "NAMENODE_UPTIME" "DISABLED" ].

Definition hdfs (summary : string) (check : list HealthCheck) : Service :=
  mkService "hdfs" summary check.

(** ** Vocabulary of the statements *)

(** The health summary values the manager documents. *)
Definition enumeration : list string :=
  [ "HISTORY_NOT_AVAILABLE"; "NOT_AVAILABLE"; "DISABLED";
    "GOOD"; "CONCERNING"; "BAD" ].

(** Concatenation of a list of strings. *)
Definition join (l : list string) : string := foldr String.append "" l.

(** The failing checks of a list, in the order of the list. *)
Definition failing (check : list HealthCheck) : list HealthCheck :=
  List.filter (λ chk, not_good_nor_disabled (chk_summary chk)) check.

Definition has_suffix (s suffix : string) : Prop :=
  ∃ pre, s = pre +:+ suffix.

Definition occurs_in (t s : string) : Prop :=
  ∃ pre post, s = pre +:+ t +:+ post.

(** The number of terminal lines [get_login_credentials] asks for: one for
    a user name that is absent or empty, one for such a password. *)
Definition missing_username (args : Args) : nat :=
  if truthy_opt_str (username args) then 0%nat else 1%nat.

Definition missing_password (args : Args) : nat :=
  if truthy_opt_str (password args) then 0%nat else 1%nat.

Definition missing_credentials (args : Args) : nat :=
  (missing_username args + missing_password args)%nat.

(** The session [initialize_api] stores for [args] (line 76). *)
Definition session_of (args : Args) : ApiResource :=
  mkApiResource (hostname args) (port args) (username args) (password args)
                (api_version args) (use_tls args).

(** The lines [validate_api_compatibility] prints for [args]. *)
Definition advisory (args : Args) : list string :=
  if truthy_int (api_version args)
     && (api_version args <? MINIMUM_SUPPORTED_API_VERSION)
  then [api_version_message (api_version args)]
  else [].

(** A manager that knows the cluster ["cluster1"] only and answers service
    requests from its queue. *)
Definition strict_get_cluster (a : ApiResource) (cluster_name : string)
    (srv : list Service) : Result string * list Service :=
  if String.eqb cluster_name "cluster1"
  then (Return cluster_name, srv)
  else (Raise (ApiException "cluster not found"), srv).

(** Arguments without user and password, and with another cluster. *)
Definition example_args_prompt : Args :=
  mkArgs "cm.example.com" None None None
         MINIMUM_SUPPORTED_API_VERSION false "cluster1" "hdfs".

(** A world with lines waiting at the terminal. *)
Definition typed_world {Srv} (lines : list string) (srv : Srv) : World Srv :=
  mkWorld lines [] None srv.

Definition example_args_cluster (c : string) : Args :=
  mkArgs "cm.example.com" None (Some "admin") (Some "secret")
         MINIMUM_SUPPORTED_API_VERSION false c "hdfs".

(** * Properties *)

(** ** Strings *)

Section Strings.
Implicit Types a b c d : string.

Lemma string_app_cons x a b : String x a +:+ b = String x (a +:+ b).
Proof. reflexivity. Qed.

Lemma string_app_nil_l a : "" +:+ a = a.
Proof. reflexivity. Qed.

Lemma string_app_nil_r a : a +:+ "" = a.
Proof.
  induction a as [|x a IH]; [reflexivity|].
  by rewrite string_app_cons, IH.
Qed.

Lemma string_app_assoc a b c : (a +:+ b) +:+ c = a +:+ b +:+ c.
Proof.
  induction a as [|x a IH]; [reflexivity|].
  by rewrite !string_app_cons, IH.
Qed.

Lemma string_length_app a b :
  String.length (a +:+ b) = (String.length a + String.length b)%nat.
Proof.
  induction a as [|x a IH]; [reflexivity|].
  rewrite string_app_cons. simpl. by rewrite IH.
Qed.

(** Two ways of cutting a string before a tail of the same length cut it
    at the same place. *)
Lemma string_app_inj_suffix a b c d :
  String.length b = String.length d → a +:+ b = c +:+ d → b = d.
Proof.
  revert c. induction a as [|x a IH]; intros [|y c] Hlen Heq.
  - exact Heq.
  - apply (f_equal String.length) in Heq.
    rewrite string_app_nil_l, string_app_cons in Heq. simpl in Heq.
    rewrite string_length_app in Heq. lia.
  - apply (f_equal String.length) in Heq.
    rewrite string_app_nil_l, string_app_cons in Heq. simpl in Heq.
    rewrite string_length_app in Heq. lia.
  - rewrite !string_app_cons in Heq. injection Heq as _ Heq. eauto.
Qed.

Lemma join_app (l1 l2 : list string) : join (l1 ++ l2) = join l1 +:+ join l2.
Proof.
  induction l1 as [|s l1 IH]; [reflexivity|].
  simpl. unfold join in *. simpl. by rewrite IH, string_app_assoc.
Qed.

Lemma occurs_in_join (t : string) (l : list string) :
  t ∈ l → occurs_in t (join l).
Proof.
  intros (l1 & l2 & ->)%list_elem_of_split.
  exists (join l1), (join l2).
  rewrite join_app. reflexivity.
Qed.

Lemma not_has_suffix_tail a t suffix :
  String.length t = String.length suffix → t ≠ suffix →
  ¬ has_suffix (a +:+ t) suffix.
Proof.
  intros Hlen Hne [pre Heq]. apply Hne.
  exact (string_app_inj_suffix _ _ _ _ Hlen Heq).
Qed.

Lemma occurs_in_app_r a t s : occurs_in t s → occurs_in t (a +:+ s).
Proof.
  intros (pre & post & ->). exists (a +:+ pre), post.
  by rewrite string_app_assoc.
Qed.
End Strings.

(** ** The two tables *)

Lemma CM_STATE_CODES_unknown (k : string) :
  k ∉ enumeration → CM_STATE_CODES !! k = None.
Proof.
  intros Hk. unfold CM_STATE_CODES.
  apply not_elem_of_list_to_map_1. exact Hk.
Qed.

Lemma CM_STATE_CODES_known (k : string) :
  k ∈ enumeration → ∃ code label,
    CM_STATE_CODES !! k = Some code ∧ NAGIOS_CODE_MESSAGES !! code = Some label.
Proof.
  unfold enumeration. rewrite !elem_of_cons, elem_of_nil.
  intros [->|[->|[->|[->|[->|[->|[]]]]]]]; eexists _, _; split; reflexivity.
Qed.

(** ** The loop over the health checks *)

Lemma append_checks_join (check : list HealthCheck) (status : string) :
  append_checks status check = status +:+ join (format_check <$> failing check).
Proof.
  unfold append_checks. revert status.
  induction check as [|chk check IH]; intros status; simpl.
  - by rewrite string_app_nil_r.
  - rewrite IH. unfold append_check.
    destruct (not_good_nor_disabled (chk_summary chk)); [|reflexivity].
    rewrite string_app_assoc. reflexivity.
Qed.

Lemma failing_nil (check : list HealthCheck) :
  Forall (λ chk, chk_summary chk = "GOOD" ∨ chk_summary chk = "DISABLED") check →
  failing check = [].
Proof.
  induction 1 as [|chk check [H|H] _ IH]; [reflexivity|..];
    simpl; unfold not_good_nor_disabled; rewrite H; exact IH.
Qed.

Lemma not_good_nor_disabled_true (x : string) :
  not_good_nor_disabled x = true ↔ x ≠ "GOOD" ∧ x ≠ "DISABLED".
Proof.
  unfold not_good_nor_disabled.
  rewrite andb_true_iff, !negb_true_iff, !String.eqb_neq. reflexivity.
Qed.

Lemma failing_elem_of (check : list HealthCheck) (chk : HealthCheck) :
  chk ∈ check →
  chk_summary chk ≠ "GOOD" → chk_summary chk ≠ "DISABLED" →
  chk ∈ failing check.
Proof.
  intros Hin Hg Hd. apply list_elem_of_In, filter_In. split.
  - by apply list_elem_of_In.
  - by apply not_good_nor_disabled_true.
Qed.

Lemma format_status_tail (label n x t : string) :
  format_status label n (x +:+ t) = (label +:+ ": " +:+ n +:+ " is " +:+ x) +:+ t.
Proof. unfold format_status. by rewrite !string_app_assoc. Qed.

(** ** The reduction of the service record *)

Lemma getitem_GOOD : getitem_str CM_STATE_CODES "GOOD" = Return EXIT_OK.
Proof. reflexivity. Qed.

Lemma getitem_EXIT_OK : getitem_int NAGIOS_CODE_MESSAGES EXIT_OK = Return "OK".
Proof. reflexivity. Qed.

Lemma Result_bind_Return {A B} (f : A → Result B) (a : A) :
  Return a ≫= f = f a.
Proof. reflexivity. Qed.

Lemma Result_bind_Raise {A B} (f : A → Result B) (e : Exception) :
  Raise e ≫= f = Raise e.
Proof. reflexivity. Qed.

Ltac result_steps :=
  repeat first
    [ rewrite getitem_GOOD
    | rewrite getitem_EXIT_OK
    | rewrite Result_bind_Return
    | rewrite Result_bind_Raise ].

Lemma main_status_concerning (s : Service) :
  healthSummary s = "CONCERNING" →
  main_status s =
    Return (format_status "OK" (name s) "CONCERNING" +:+ " - " +:+
              join (format_check <$> failing (healthChecks s)),
            EXIT_OK).
Proof.
  intros Hs. unfold main_status. rewrite Hs. simpl. result_steps.
  unfold mret, Result_ret.
  by rewrite append_checks_join, string_app_assoc.
Qed.

Lemma main_status_table (s : Service) (code : Z) (label : string) :
  healthSummary s ≠ "CONCERNING" →
  CM_STATE_CODES !! healthSummary s = Some code →
  NAGIOS_CODE_MESSAGES !! code = Some label →
  main_status s =
    Return (if not_good_nor_disabled (healthSummary s)
            then format_status label (name s) (healthSummary s) +:+ " - " +:+
                   join (format_check <$> failing (healthChecks s))
            else format_status label (name s) (healthSummary s),
            code).
Proof.
  intros Hs%String.eqb_neq Hcode Hlabel.
  unfold main_status, getitem_str, getitem_int.
  rewrite Hs, Hcode. result_steps. rewrite Hlabel. result_steps.
  unfold mret, Result_ret. result_steps.
  destruct (not_good_nor_disabled (healthSummary s)); [|reflexivity].
  by rewrite append_checks_join, string_app_assoc.
Qed.

Lemma main_status_unknown (s : Service) :
  healthSummary s ∉ enumeration →
  main_status s = Raise (KeyError (StrKey (healthSummary s))).
Proof.
  intros Hs. unfold main_status, getitem_str.
  destruct (String.eqb_spec (healthSummary s) "CONCERNING") as [Heq|_].
  - exfalso. apply Hs. rewrite Heq. unfold enumeration. set_solver.
  - by rewrite (CM_STATE_CODES_unknown _ Hs).
Qed.

(** A summary of the enumeration other than ["CONCERNING"], outside
    ["GOOD"] and ["DISABLED"], gets the separator and the failing checks. *)
Lemma main_status_enumeration (s : Service) :
  healthSummary s ∈ enumeration →
  healthSummary s ≠ "GOOD" → healthSummary s ≠ "DISABLED" →
  ∃ label code,
    main_status s =
      Return (format_status label (name s) (healthSummary s) +:+ " - " +:+
                join (format_check <$> failing (healthChecks s)),
              code).
Proof.
  intros Hin Hg Hd.
  destruct (decide (healthSummary s = "CONCERNING")) as [Hc|Hc].
  - exists "OK", EXIT_OK. rewrite (main_status_concerning s Hc).
    by rewrite Hc.
  - destruct (CM_STATE_CODES_known _ Hin) as (code & label & Hcode & Hlabel).
    exists label, code.
    rewrite (main_status_table s code label Hc Hcode Hlabel).
    by rewrite (proj2 (not_good_nor_disabled_true _) (conj Hg Hd)).
Qed.

(** ** Runs of [main] *)

Section Runs.
Context {Srv Cluster : Type}.
Variable get_cluster : ApiResource → string → Srv → Result Cluster * Srv.
Variable get_service : Cluster → string → Srv → Result Service * Srv.

Implicit Types (args : Args) (w : World Srv) (s : Service).

(** A run that fetched [s] returns or raises what the reduction of [s]
    does, and a run whose fetch fails raises that failure. *)
Lemma main_fetched args w s w' :
  main_fetch get_cluster get_service args w = (Return s, w') →
  main get_cluster get_service args w = (main_status s, w').
Proof. intros Hf. unfold main, bind, lift. by rewrite Hf. Qed.

Lemma main_fetch_failed args w e w' :
  main_fetch get_cluster get_service args w = (Raise e, w') →
  main get_cluster get_service args w = (Raise e, w').
Proof. intros Hf. unfold main, bind. by rewrite Hf. Qed.

Local Abbreviation main := (main get_cluster get_service).
Local Abbreviation main_fetch := (main_fetch get_cluster get_service).

(** C1: in every run whose fetched service has health summary
    ["CONCERNING"], [main] returns the exit code [EXIT_OK] (0) and a status
    that starts with the label ["OK"]: the label and the code of ["GOOD"],
    not the [EXIT_WARNING] (1) the table holds for ["CONCERNING"]. *)
Theorem concerning_reported_ok args w s w' :
  main_fetch args w = (Return s, w') →
  healthSummary s = "CONCERNING" →
  ∃ rest,
    main args w = (Return ("OK" +:+ ": " +:+ rest, EXIT_OK), w')
    ∧ EXIT_OK = 0
    ∧ CM_STATE_CODES !! "GOOD" = Some EXIT_OK
    ∧ NAGIOS_CODE_MESSAGES !! EXIT_OK = Some "OK"
    ∧ CM_STATE_CODES !! "CONCERNING" = Some EXIT_WARNING
    ∧ EXIT_WARNING = 1.
Proof.
  intros Hf Hs.
  exists (name s +:+ " is " +:+ "CONCERNING" +:+ " - " +:+
            join (format_check <$> failing (healthChecks s))).
  split; [|done].
  rewrite (main_fetched _ _ _ _ Hf), (main_status_concerning s Hs).
  unfold format_status. by rewrite !string_app_assoc.
Qed.

(** C3: in every run whose fetched service has one of the health
    summaries HISTORY_NOT_AVAILABLE, NOT_AVAILABLE, DISABLED, GOOD, BAD,
    [main] returns the exit code the table [CM_STATE_CODES] holds for it:
    3, 3, 3, 0 and 2. *)
Theorem exit_code_from_table args w s w' (code : Z) :
  main_fetch args w = (Return s, w') →
  (healthSummary s, code) ∈
    [ ("HISTORY_NOT_AVAILABLE", 3); ("NOT_AVAILABLE", 3); ("DISABLED", 3);
      ("GOOD", 0); ("BAD", 2) ] →
  CM_STATE_CODES !! healthSummary s = Some code
  ∧ ∃ status, main args w = (Return (status, code), w').
Proof.
  intros Hf Hin. rewrite (main_fetched _ _ _ _ Hf).
  rewrite !elem_of_cons, elem_of_nil in Hin.
  destruct s as [n hs check]; simpl in *.
  destruct Hin as [Hin|[Hin|[Hin|[Hin|[Hin|[]]]]]];
    injection Hin as -> ->; (split; [reflexivity|]).
  - erewrite (main_status_table _ 3 "UNKNOWN"); [eauto|done..].
  - erewrite (main_status_table _ 3 "UNKNOWN"); [eauto|done..].
  - erewrite (main_status_table _ 3 "UNKNOWN"); [eauto|done..].
  - erewrite (main_status_table _ 0 "OK"); [eauto|done..].
  - erewrite (main_status_table _ 2 "CRITICAL"); [eauto|done..].
Qed.

(** C4, as the code has it: in every run whose fetched service has health
    summary ["CONCERNING"], [main] returns exit code 0 and the status
    ["OK: <service name> is CONCERNING - "] followed by the failing
    checks, each as ["<name> (<summary>) "], in the order of the list. *)
Theorem concerning_status args w s w' :
  main_fetch args w = (Return s, w') →
  healthSummary s = "CONCERNING" →
  main args w =
    (Return ("OK: " +:+ name s +:+ " is CONCERNING - " +:+
               join (format_check <$> failing (healthChecks s)),
             0),
     w').
Proof.
  intros Hf Hs.
  rewrite (main_fetched _ _ _ _ Hf), (main_status_concerning s Hs).
  unfold format_status. by rewrite !string_app_assoc.
Qed.

(** C5: in every run whose fetched service has a health summary of the
    enumeration other than ["GOOD"] and ["DISABLED"], the status is the
    head ["<LABEL>: <name> is <summary>"], the separator [" - "] and then
    the checks whose own summary is neither ["GOOD"] nor ["DISABLED"], in
    the order of the list, each as ["<name> (<summary>) "]; so every such
    check occurs in the status.  For the service ["hdfs"] with summary
    ["BAD"] and the checks DATANODES_HEALTHY (BAD), NAMENODE_UPTIME (GOOD)
    the result is ["CRITICAL: hdfs is BAD - DATANODES_HEALTHY (BAD) "]
    with exit code 2. *)
Theorem failing_checks_reported args w s w' :
  main_fetch args w = (Return s, w') →
  healthSummary s ∈ enumeration →
  healthSummary s ≠ "GOOD" →
  healthSummary s ≠ "DISABLED" →
  (∃ label code status,
     main args w = (Return (status, code), w')
     ∧ status =
         format_status label (name s) (healthSummary s) +:+ " - " +:+
           join (format_check <$> failing (healthChecks s))
     ∧ ∀ chk, chk ∈ healthChecks s →
         chk_summary chk ≠ "GOOD" → chk_summary chk ≠ "DISABLED" →
         occurs_in (chk_name chk +:+ " (" +:+ chk_summary chk +:+ ") ")
                   status)
  ∧ (s = hdfs "BAD" hdfs_checks →
     main args w =
       (Return ("CRITICAL: hdfs is BAD - DATANODES_HEALTHY (BAD) ", 2), w')).
Proof.
  intros Hf Hin Hg Hd. rewrite (main_fetched _ _ _ _ Hf). split.
  - destruct (main_status_enumeration s Hin Hg Hd) as (label & code & ->).
    eexists label, code, _. split; [reflexivity|]. split; [reflexivity|].
    intros chk Hchk Hcg Hcd.
    do 2 apply occurs_in_app_r. apply occurs_in_join.
    apply (list_elem_of_fmap_2 format_check).
    by apply failing_elem_of.
  - intros ->. reflexivity.
Qed.

(** C6: in every run whose fetched service has health summary ["GOOD"] or
    ["DISABLED"], the status is exactly ["OK: <name> is GOOD"],
    respectively ["UNKNOWN: <name> is DISABLED"], whatever the list of
    health checks holds: nothing of the checks is appended and the status
    does not end in [" - "]. *)
Theorem good_or_disabled_status args w s w' :
  main_fetch args w = (Return s, w') →
  healthSummary s = "GOOD" ∨ healthSummary s = "DISABLED" →
  ∃ label code,
    main args w =
      (Return (format_status label (name s) (healthSummary s), code), w')
    ∧ ((healthSummary s = "GOOD" ∧ label = "OK" ∧ code = 0)
       ∨ (healthSummary s = "DISABLED" ∧ label = "UNKNOWN" ∧ code = 3))
    ∧ ¬ has_suffix (format_status label (name s) (healthSummary s)) " - ".
Proof.
  intros Hf Hs. rewrite (main_fetched _ _ _ _ Hf).
  destruct Hs as [Hs|Hs].
  - exists "OK", 0. split; [|split; [by left|]].
    + rewrite (main_status_table s 0 "OK"); try rewrite Hs; done.
    + rewrite Hs. change "GOOD" with ("G" +:+ "OOD").
      rewrite format_status_tail. by apply not_has_suffix_tail.
  - exists "UNKNOWN", 3. split; [|split; [by right|]].
    + rewrite (main_status_table s 3 "UNKNOWN"); try rewrite Hs; done.
    + rewrite Hs. change "DISABLED" with ("DISAB" +:+ "LED").
      rewrite format_status_tail. by apply not_has_suffix_tail.
Qed.

(** C9: in every run whose fetched service has a health summary of the
    enumeration other than ["GOOD"] and ["DISABLED"] (["CONCERNING"]
    included), the separator [" - "] follows the head of the status
    whatever the checks are; when every check is ["GOOD"] or ["DISABLED"]
    nothing follows the separator and the status ends in [" - "]. *)
Theorem dangling_separator args w s w' :
  main_fetch args w = (Return s, w') →
  healthSummary s ∈ enumeration →
  healthSummary s ≠ "GOOD" →
  healthSummary s ≠ "DISABLED" →
  ∃ label code tail,
    main args w =
      (Return (format_status label (name s) (healthSummary s) +:+ " - " +:+
                 tail, code), w')
    ∧ (Forall (λ chk, chk_summary chk = "GOOD" ∨ chk_summary chk = "DISABLED")
              (healthChecks s) →
       tail = ""
       ∧ main args w =
           (Return (format_status label (name s) (healthSummary s) +:+ " - ",
                    code), w')
       ∧ has_suffix
           (format_status label (name s) (healthSummary s) +:+ " - ") " - ").
Proof.
  intros Hf Hin Hg Hd. rewrite (main_fetched _ _ _ _ Hf).
  destruct (main_status_enumeration s Hin Hg Hd) as (label & code & ->).
  eexists label, code, _. split; [reflexivity|].
  intros Hall. rewrite (failing_nil _ Hall). simpl.
  split; [reflexivity|]. split.
  - by rewrite string_app_nil_r.
  - by eexists.
Qed.

(** C10: in every run whose fetched service has a health summary outside
    the enumeration, the subscript [CM_STATE_CODES[summary]] raises
    [KeyError] and [main] returns no pair. *)
Theorem unknown_summary_raises args w s w' :
  main_fetch args w = (Return s, w') →
  healthSummary s ∉ enumeration →
  CM_STATE_CODES !! healthSummary s = None
  ∧ main args w = (Raise (KeyError (StrKey (healthSummary s))), w')
  ∧ ∀ status code w'', main args w ≠ (Return (status, code), w'').
Proof.
  intros Hf Hs. rewrite (main_fetched _ _ _ _ Hf), (main_status_unknown s Hs).
  split; [by apply CM_STATE_CODES_unknown|]. split; [reflexivity|].
  intros status code w'' [=].
Qed.
End Runs.

(** ** Port and API version *)

(** C7, as the code has it: with no port given the port becomes 7180
    without TLS and 7183 with TLS; a given port other than 0 is kept,
    whatever the TLS flag. *)
Theorem default_port_resolution (args : Args) :
  port args ≠ Some 0 →
  port (main_default_port args) =
    Some (match port args with
          | None => if use_tls args then 7183 else 7180
          | Some p => p
          end).
Proof.
  intros Hp. unfold main_default_port.
  destruct (port args) as [p|] eqn:Hport; simpl.
  - unfold truthy_int. destruct (Z.eqb_spec p 0) as [->|_]; [done|].
    simpl. exact Hport.
  - by destruct (use_tls args).
Qed.

(** The port found by [main_default_port] is the port of the session. *)
Lemma main_connect_port {Srv Cluster}
    (get_cluster : ApiResource → string → Srv → Result Cluster * Srv)
    (get_service : Cluster → string → Srv → Result Service * Srv)
    (args : Args) (w w' : World Srv) (s : Service) :
  main_connect get_cluster get_service args w = (Return s, w') →
  ∃ a, api w' = Some a ∧ server_port a = port args.
Proof.
  unfold main_connect, get_login_credentials, bind, ret, raw_input, getpass,
    read_line, initialize_api, api_get_cluster, remote.
  intros H.
  repeat (case_match; simplify_eq/=); eauto.
Qed.

(** C8, as the code has it: an API version other than 0 and below 12 makes
    [validate_api_compatibility] print the advisory and return, and [main]
    goes on with the credentials and the fetch; a version of 12 or more
    prints nothing. *)
Theorem api_version_advisory {Srv Cluster}
    (get_cluster : ApiResource → string → Srv → Result Cluster * Srv)
    (get_service : Cluster → string → Srv → Result Service * Srv)
    (args : Args) (w : World Srv) :
  api_version args ≠ 0 →
  let w1 := if api_version args <? 12
            then printed w (api_version_message (api_version args))
            else w in
  validate_api_compatibility args w = (Return tt, w1)
  ∧ main_fetch get_cluster get_service args w =
      main_connect get_cluster get_service (main_default_port args) w1.
Proof.
  intros Hv w1.
  assert (Hargs : api_version (main_default_port args) = api_version args).
  { unfold main_default_port. by repeat case_match. }
  assert (Hval : ∀ a, api_version a = api_version args →
                 validate_api_compatibility a w = (Return tt, w1)).
  { intros a Ha. unfold validate_api_compatibility, truthy_int. rewrite Ha.
    destruct (Z.eqb_spec (api_version args) 0) as [?|_]; [done|].
    subst w1. unfold MINIMUM_SUPPORTED_API_VERSION. simpl.
    by destruct (api_version args <? 12). }
  split; [by apply Hval|].
  unfold main_fetch, bind. by rewrite (Hval _ Hargs).
Qed.

(** ** The [__main__] block *)

(** Every successful fetch takes one answer from the queue of the example
    manager. *)
Lemma queue_main_fetch_takes_one (args : Args) (w w' : World (list Service))
    (s : Service) :
  queue_main_fetch args w = (Return s, w') → server w = s :: server w'.
Proof.
  unfold queue_main_fetch, main_fetch, main_connect, validate_api_compatibility,
    get_login_credentials, bind, ret, print, printed, raw_input, getpass,
    read_line, initialize_api, api_get_cluster, remote, queue_get_cluster,
    queue_get_service.
  intros H.
  repeat (case_match; simplify_eq/=); eauto.
Qed.

(** Neither the fetch from the example manager nor the reduction raises
    [SystemExit]. *)
Lemma queue_main_fetch_no_exit (args : Args) (w w' : World (list Service))
    (code : Z) :
  queue_main_fetch args w ≠ (Raise (SystemExit code), w').
Proof.
  unfold queue_main_fetch, main_fetch, main_connect, validate_api_compatibility,
    get_login_credentials, bind, ret, print, printed, raw_input, getpass,
    read_line, initialize_api, api_get_cluster, remote, queue_get_cluster,
    queue_get_service.
  intros H.
  repeat (case_match; simplify_eq/=).
Qed.

Lemma main_status_no_exit (s : Service) (code : Z) :
  main_status s ≠ Raise (SystemExit code).
Proof.
  unfold main_status, getitem_str, getitem_int, mbind, mret, Result_bind,
    Result_ret.
  intros H.
  repeat (case_match; simplify_eq/=).
Qed.

(** A run of the script that reaches [sys.exit] has fetched the service
    twice. *)
Lemma queue_script_fetches_twice (args : Args) (w w' : World (list Service))
    (code : Z) :
  queue_script args w = (Raise (SystemExit code), w') →
  ∃ s1 s2, server w = s1 :: s2 :: server w'.
Proof.
  unfold queue_script, script, sys_exit, raise, print, main.
  unfold bind at 1 2 3 4 5. unfold lift.
  fold (queue_main_fetch args).
  destruct (queue_main_fetch args w) as [[s1|e1] w1] eqn:H1.
  2: { intros [= -> ->]. by apply queue_main_fetch_no_exit in H1. }
  apply queue_main_fetch_takes_one in H1.
  destruct (main_status s1) as [[status1 code1]|e1] eqn:Hs1.
  2: { intros [= -> ->]. by apply main_status_no_exit in Hs1. }
  destruct (queue_main_fetch args (printed w1 (status1, code1).1))
    as [[s2|e2] w2] eqn:H2.
  2: { intros [= -> ->]. by apply queue_main_fetch_no_exit in H2. }
  apply queue_main_fetch_takes_one in H2. simpl in H2.
  destruct (main_status s2) as [[status2 code2]|e2] eqn:Hs2.
  2: { intros [= -> ->]. by apply main_status_no_exit in Hs2. }
  intros [= <- <-]. exists s1, s2. by rewrite H1, H2.
Qed.

(** C2, where the code departs from it: the script calls [main] twice.  With
    a manager that reports ["hdfs"] as GOOD at the first fetch and as BAD at
    the second, the first evaluation yields [("OK: hdfs is GOOD", 0)], the
    script prints that status once, fetches again and exits with the code of
    the second evaluation, 2; both answers of the manager are used up. *)
Theorem script_evaluates_twice :
  let w := fresh_world [hdfs "GOOD" hdfs_checks; hdfs "BAD" hdfs_checks] in
  (queue_main example_args w).1 = Return ("OK: hdfs is GOOD", 0)
  ∧ (queue_script example_args w).1 = Raise (SystemExit 2)
  ∧ exit_status (queue_script example_args w).1 = 2
  ∧ stdout (queue_script example_args w).2 = ["OK: hdfs is GOOD"]
  ∧ server (queue_script example_args w).2 = [].
Proof. vm_compute. done. Qed.

(** ** The statements at concrete runs *)

Section Examples.
Local Abbreviation gc := queue_get_cluster.
Local Abbreviation gs := queue_get_service.

(** C1 at a run: ["hdfs"] reported as CONCERNING. *)
Lemma concerning_reported_ok_witness :
  ∃ rest,
    queue_main example_args (fresh_world [hdfs "CONCERNING" concerning_checks])
      = (Return ("OK" +:+ ": " +:+ rest, EXIT_OK), example_after)
    ∧ EXIT_OK = 0
    ∧ CM_STATE_CODES !! "GOOD" = Some EXIT_OK
    ∧ NAGIOS_CODE_MESSAGES !! EXIT_OK = Some "OK"
    ∧ CM_STATE_CODES !! "CONCERNING" = Some EXIT_WARNING
    ∧ EXIT_WARNING = 1.
Proof.
  apply (concerning_reported_ok gc gs example_args
           (fresh_world [hdfs "CONCERNING" concerning_checks])
           (hdfs "CONCERNING" concerning_checks) example_after);
    reflexivity.
Defined.

(** C3 at a run: ["hdfs"] reported as BAD exits with 2. *)
Lemma exit_code_from_table_witness :
  CM_STATE_CODES !! "BAD" = Some 2
  ∧ ∃ status,
      queue_main example_args (fresh_world [hdfs "BAD" hdfs_checks])
        = (Return (status, 2), example_after).
Proof.
  apply (exit_code_from_table gc gs example_args
           (fresh_world [hdfs "BAD" hdfs_checks])
           (hdfs "BAD" hdfs_checks) example_after 2).
  - reflexivity.
  - simpl. repeat constructor.
Defined.

(** C4 as stated fails: with a failing check the status of a CONCERNING
    service carries the separator and the check, and with no failing
    check it still ends in the separator. *)
Lemma concerning_status_counterexample :
  queue_main example_args (fresh_world [hdfs "CONCERNING" concerning_checks])
    = (Return ("OK: hdfs is CONCERNING - HDFS_FREE_SPACE_MONITORING (CONCERNING) ",
               0), example_after)
  ∧ queue_main example_args (fresh_world [hdfs "CONCERNING" good_checks])
      = (Return ("OK: hdfs is CONCERNING - ", 0), example_after)
  ∧ queue_main example_args (fresh_world [hdfs "CONCERNING" concerning_checks])
      ≠ (Return ("OK: hdfs is CONCERNING", 0), example_after)
  ∧ queue_main example_args (fresh_world [hdfs "CONCERNING" good_checks])
      ≠ (Return ("OK: hdfs is CONCERNING", 0), example_after).
Proof. vm_compute. repeat split; discriminate. Qed.

(** C4 as the code has it, at a run. *)
Lemma concerning_status_witness :
  queue_main example_args (fresh_world [hdfs "CONCERNING" concerning_checks])
    = (Return ("OK: " +:+ "hdfs" +:+ " is CONCERNING - " +:+
                 join (format_check <$> failing concerning_checks), 0),
       example_after).
Proof.
  apply (concerning_status gc gs example_args
           (fresh_world [hdfs "CONCERNING" concerning_checks])
           (hdfs "CONCERNING" concerning_checks) example_after);
    reflexivity.
Defined.

(** C5 at the run of the specification's example. *)
Lemma failing_checks_reported_witness :
  queue_main example_args (fresh_world [hdfs "BAD" hdfs_checks])
    = (Return ("CRITICAL: hdfs is BAD - DATANODES_HEALTHY (BAD) ", 2),
       example_after)
  ∧ ∃ label code status,
      queue_main example_args (fresh_world [hdfs "BAD" hdfs_checks])
        = (Return (status, code), example_after)
      ∧ status =
          format_status label "hdfs" "BAD" +:+ " - " +:+
            join (format_check <$> failing hdfs_checks)
      ∧ ∀ chk, chk ∈ hdfs_checks →
          chk_summary chk ≠ "GOOD" → chk_summary chk ≠ "DISABLED" →
          occurs_in (chk_name chk +:+ " (" +:+ chk_summary chk +:+ ") ")
                    status.
Proof.
  destruct (failing_checks_reported gc gs example_args
              (fresh_world [hdfs "BAD" hdfs_checks])
              (hdfs "BAD" hdfs_checks) example_after) as [Hgen Hex].
  - reflexivity.
  - simpl. repeat constructor.
  - discriminate.
  - discriminate.
  - split; [exact (Hex eq_refl) | exact Hgen].
Defined.

(** C6 at a run: a GOOD service with a failing check in its list. *)
Lemma good_or_disabled_status_witness :
  ∃ label code,
    queue_main example_args (fresh_world [hdfs "GOOD" hdfs_checks])
      = (Return (format_status label "hdfs" "GOOD", code), example_after)
    ∧ (("GOOD" = "GOOD" ∧ label = "OK" ∧ code = 0)
       ∨ ("GOOD" = "DISABLED" ∧ label = "UNKNOWN" ∧ code = 3))
    ∧ ¬ has_suffix (format_status label "hdfs" "GOOD") " - ".
Proof.
  apply (good_or_disabled_status gc gs example_args
           (fresh_world [hdfs "GOOD" hdfs_checks])
           (hdfs "GOOD" hdfs_checks) example_after).
  - reflexivity.
  - left. reflexivity.
Defined.

(** C9 at a run: a BAD service all of whose checks are GOOD or DISABLED. *)
Lemma dangling_separator_witness :
  ∃ label code,
    queue_main example_args (fresh_world [hdfs "BAD" good_checks])
      = (Return (format_status label "hdfs" "BAD" +:+ " - ", code),
         example_after)
    ∧ has_suffix (format_status label "hdfs" "BAD" +:+ " - ") " - ".
Proof.
  destruct (dangling_separator gc gs example_args
              (fresh_world [hdfs "BAD" good_checks])
              (hdfs "BAD" good_checks) example_after)
    as (label & code & tail & _ & Hall).
  - reflexivity.
  - simpl. repeat constructor.
  - discriminate.
  - discriminate.
  - exists label, code.
    assert (Hgood : Forall (λ chk, chk_summary chk = "GOOD"
                                   ∨ chk_summary chk = "DISABLED")
                           good_checks).
    { constructor; [left; reflexivity|].
      constructor; [right; reflexivity|].
      constructor. }
    destruct (Hall Hgood) as (_ & Hrun & Hsuffix).
    split; [exact Hrun | exact Hsuffix].
Defined.

(** C10 at a run: a summary the table does not know. *)
Lemma unknown_summary_raises_witness :
  CM_STATE_CODES !! "STARTING" = None
  ∧ queue_main example_args (fresh_world [hdfs "STARTING" hdfs_checks])
      = (Raise (KeyError (StrKey "STARTING")), example_after)
  ∧ ∀ status code w'',
      queue_main example_args (fresh_world [hdfs "STARTING" hdfs_checks])
        ≠ (Return (status, code), w'').
Proof.
  apply (unknown_summary_raises gc gs example_args
           (fresh_world [hdfs "STARTING" hdfs_checks])
           (hdfs "STARTING" hdfs_checks) example_after).
  - reflexivity.
  - simpl. intros Hin%list_elem_of_In. simpl in Hin.
    intuition discriminate.
Defined.

(** C7 as stated fails: the given port 0 is replaced by the default. *)
Lemma default_port_counterexample :
  port (main_default_port (example_args_port (Some 0) false)) = Some 7180
  ∧ port (main_default_port (example_args_port (Some 0) true)) = Some 7183
  ∧ port (main_default_port (example_args_port (Some 0) false)) ≠ Some 0.
Proof. vm_compute. repeat split; discriminate. Qed.

(** C7 as the code has it, at three command lines. *)
Lemma default_port_resolution_witness :
  port (main_default_port (example_args_port None false)) = Some 7180
  ∧ port (main_default_port (example_args_port None true)) = Some 7183
  ∧ port (main_default_port (example_args_port (Some 8080) true)) = Some 8080.
Proof.
  split; [|split].
  - apply (default_port_resolution (example_args_port None false)).
    discriminate.
  - apply (default_port_resolution (example_args_port None true)).
    discriminate.
  - apply (default_port_resolution (example_args_port (Some 8080) true)).
    simpl. discriminate.
Defined.

(** C8 as stated fails: version 0 is below 12 and nothing is printed. *)
Lemma api_version_advisory_counterexample :
  0 < MINIMUM_SUPPORTED_API_VERSION
  ∧ validate_api_compatibility (example_args_version 0)
      (fresh_world [hdfs "GOOD" hdfs_checks])
    = (Return tt, fresh_world [hdfs "GOOD" hdfs_checks])
  ∧ stdout (validate_api_compatibility (example_args_version 0)
              (fresh_world [hdfs "GOOD" hdfs_checks])).2 = [].
Proof. vm_compute. repeat split. Qed.

(** C8 as the code has it, at version 5. *)
Lemma api_version_advisory_witness :
  validate_api_compatibility (example_args_version 5)
      (fresh_world [hdfs "GOOD" hdfs_checks])
    = (Return tt,
       printed (fresh_world [hdfs "GOOD" hdfs_checks])
               (api_version_message 5))
  ∧ queue_main_fetch (example_args_version 5)
      (fresh_world [hdfs "GOOD" hdfs_checks])
    = main_connect gc gs (main_default_port (example_args_version 5))
        (printed (fresh_world [hdfs "GOOD" hdfs_checks])
                 (api_version_message 5)).
Proof.
  apply (api_version_advisory gc gs (example_args_version 5)
           (fresh_world [hdfs "GOOD" hdfs_checks])).
  simpl. discriminate.
Defined.

(** The run with version 5 from its start to its end: the advisory is
    printed and the status is still computed. *)
Example old_api_version_run :
  api_version_message 5
    = "ERROR: Given API version: 5. Minimum supported API version: 12"
  ∧ (queue_main (example_args_version 5)
       (fresh_world [hdfs "GOOD" hdfs_checks])).1
    = Return ("OK: hdfs is GOOD", 0)
  ∧ stdout (queue_main (example_args_version 5)
              (fresh_world [hdfs "GOOD" hdfs_checks])).2
    = ["ERROR: Given API version: 5. Minimum supported API version: 12"].
Proof. vm_compute. done. Qed.
End Examples.


(** * Further properties of the script *)

(** ** Credentials (lines 90-99) *)

Lemma truthy_opt_str_is_Some (o : option string) :
  truthy_opt_str o = true → is_Some o.
Proof. destruct o; [eauto|discriminate]. Qed.

(** What [get_login_credentials] does, by the credentials given and the
    lines at the terminal. *)
Lemma get_login_credentials_cases {Srv} (args : Args) (w : World Srv) :
  get_login_credentials args w =
    match truthy_opt_str (username args), truthy_opt_str (password args),
          stdin w with
    | true, true, _ => (Return args, w)
    | true, false, p :: rest =>
        (Return (set_password p args),
         mkWorld rest (stdout w) (api w) (server w))
    | false, true, u :: rest =>
        (Return (set_username u args),
         mkWorld rest (stdout w) (api w) (server w))
    | false, false, u :: p :: rest =>
        (Return (set_password p (set_username u args)),
         mkWorld rest (stdout w) (api w) (server w))
    | false, false, [u] =>
        (Raise EOFError, mkWorld [] (stdout w) (api w) (server w))
    | _, _, [] => (Raise EOFError, w)
    end.
Proof.
  unfold get_login_credentials, bind, ret, raw_input, getpass, read_line.
  destruct w as [sin sout a srv]. simpl.
  destruct (truthy_opt_str (username args)) eqn:Hu,
           (truthy_opt_str (password args)) eqn:Hp; simpl;
    rewrite ?Hp; simpl;
    destruct sin as [|l1 [|l2 rest]]; simpl; rewrite ?Hp; reflexivity.
Qed.


Lemma get_login_credentials_returned {Srv} (args args' : Args)
    (w w' : World Srv) :
  get_login_credentials args w = (Return args', w') →
  username args' =
    (if truthy_opt_str (username args) then username args
     else stdin w !! 0%nat)
  ∧ password args' =
      (if truthy_opt_str (password args) then password args
       else stdin w !! missing_username args)
  ∧ is_Some (username args') ∧ is_Some (password args')
  ∧ hostname args' = hostname args ∧ port args' = port args
  ∧ api_version args' = api_version args ∧ use_tls args' = use_tls args
  ∧ cluster args' = cluster args ∧ service args' = service args.
Proof.
  intros H. rewrite get_login_credentials_cases in H.
  unfold missing_username.
  destruct (truthy_opt_str (username args)) eqn:Tu,
           (truthy_opt_str (password args)) eqn:Tp,
           (stdin w) as [|l1 [|l2 rest]];
    simplify_eq/=;
    repeat split; eauto using truthy_opt_str_is_Some.
Qed.


(** X2: when [get_login_credentials] returns, a credential that was given
    and not empty is kept, a missing one is the line typed for it, first
    the user name, then the password, whatever was typed; the other
    arguments are unchanged. *)
Theorem get_login_credentials_result {Srv} (args args' : Args)
    (w w' : World Srv) :
  get_login_credentials args w = (Return args', w') →
  username args' =
    (if truthy_opt_str (username args) then username args
     else stdin w !! 0%nat)
  ∧ password args' =
      (if truthy_opt_str (password args) then password args
       else stdin w !! missing_username args)
  ∧ is_Some (username args') ∧ is_Some (password args')
  ∧ hostname args' = hostname args ∧ port args' = port args
  ∧ api_version args' = api_version args ∧ use_tls args' = use_tls args
  ∧ cluster args' = cluster args ∧ service args' = service args.
Proof.
  intros H. rewrite get_login_credentials_cases in H.
  unfold missing_username.
  destruct (truthy_opt_str (username args)) eqn:Tu,
           (truthy_opt_str (password args)) eqn:Tp,
           (stdin w) as [|l1 [|l2 rest]];
    simplify_eq/=;
    repeat split; eauto using truthy_opt_str_is_Some.
Qed.

(** ** The default port (lines 137-141) *)

Lemma main_default_port_fields (args : Args) :
  hostname (main_default_port args) = hostname args
  ∧ username (main_default_port args) = username args
  ∧ password (main_default_port args) = password args
  ∧ api_version (main_default_port args) = api_version args
  ∧ use_tls (main_default_port args) = use_tls args
  ∧ cluster (main_default_port args) = cluster args
  ∧ service (main_default_port args) = service args.
Proof. unfold main_default_port. by repeat case_match. Qed.

Lemma main_default_port_nonzero (args : Args) :
  ∃ p, port (main_default_port args) = Some p ∧ p ≠ 0.
Proof.
  unfold main_default_port.
  destruct (port args) as [p|] eqn:Hp; simpl.
  - unfold truthy_int. destruct (Z.eqb_spec p 0) as [->|Hne]; simpl.
    + destruct (use_tls args); eexists; (split; [reflexivity|done]).
    + exists p. rewrite ?Hp. by split.
  - destruct (use_tls args); eexists; (split; [reflexivity|done]).
Qed.

(** X3: after the defaulting step the port is always set and never 0, the
    step changes no other argument, and doing it again changes nothing. *)
Theorem main_default_port_set (args : Args) :
  (∃ p, port (main_default_port args) = Some p ∧ p ≠ 0)
  ∧ main_default_port (main_default_port args) = main_default_port args
  ∧ hostname (main_default_port args) = hostname args
  ∧ username (main_default_port args) = username args
  ∧ password (main_default_port args) = password args
  ∧ api_version (main_default_port args) = api_version args
  ∧ use_tls (main_default_port args) = use_tls args
  ∧ cluster (main_default_port args) = cluster args
  ∧ service (main_default_port args) = service args.
Proof.
  pose proof (main_default_port_nonzero args) as Hport.
  split; [exact Hport|]. split; [|apply main_default_port_fields].
  destruct Hport as (p & Hp & Hne).
  unfold main_default_port at 1. rewrite Hp. simpl. unfold truthy_int.
  by destruct (Z.eqb_spec p 0).
Qed.

(** ** What [main] does to the world *)

Lemma validate_api_compatibility_cases {Srv} (args : Args) (w : World Srv) :
  validate_api_compatibility args w =
    (Return tt,
     mkWorld (stdin w) (stdout w ++ advisory args) (api w) (server w)).
Proof.
  unfold validate_api_compatibility, advisory, print, printed, ret.
  destruct w as [sin sout a srv]. simpl.
  case_match; [reflexivity|]. by rewrite app_nil_r.
Qed.


Section Frame.
Context {Srv Cluster : Type}.
Variable get_cluster : ApiResource → string → Srv → Result Cluster * Srv.
Variable get_service : Cluster → string → Srv → Result Service * Srv.

Implicit Types (args : Args) (w : World Srv) (s : Service).

(** [main_connect], by the outcome of its steps. *)
Lemma main_connect_cases args w :
  main_connect get_cluster get_service args w =
    match get_login_credentials args w with
    | (Return a, w1) =>
        match get_cluster (session_of a) (cluster a) (server w1) with
        | (Return c, srv) =>
            let '(r, srv') := get_service c (service a) srv in
            (r, mkWorld (stdin w1) (stdout w1) (Some (session_of a)) srv')
        | (Raise e, srv) =>
            (Raise e, mkWorld (stdin w1) (stdout w1) (Some (session_of a)) srv)
        end
    | (Raise e, w1) => (Raise e, w1)
    end.
Proof.
  unfold main_connect, bind, initialize_api, api_get_cluster, remote,
    session_of.
  destruct (get_login_credentials args w) as [[a|e] w1]; [|reflexivity].
  simpl.
  destruct (get_cluster _ _ _) as [[c|e] srv]; [|reflexivity].
  simpl. by destruct (get_service _ _ _).
Qed.

Lemma main_fetch_cases args w :
  main_fetch get_cluster get_service args w =
    main_connect get_cluster get_service (main_default_port args)
      (mkWorld (stdin w) (stdout w ++ advisory args) (api w) (server w)).
Proof.
  unfold main_fetch, bind. rewrite validate_api_compatibility_cases.
  unfold advisory.
  by destruct (main_default_port_fields args) as (_ & _ & _ & -> & _).
Qed.




End Frame.

(** ** The pair returned by the reduction (lines 153-169) *)

Lemma CM_STATE_CODES_lookup (k : string) (code : Z) :
  CM_STATE_CODES !! k = Some code →
  (k, code) ∈ [ ("HISTORY_NOT_AVAILABLE", 3); ("NOT_AVAILABLE", 3);
                ("DISABLED", 3); ("GOOD", 0); ("CONCERNING", 1); ("BAD", 2) ].
Proof. unfold CM_STATE_CODES. apply elem_of_list_to_map_2. Qed.

Lemma CM_STATE_CODES_dom (k : string) :
  k ∈ enumeration ↔ is_Some (CM_STATE_CODES !! k).
Proof.
  split.
  - intros (code & label & -> & _)%CM_STATE_CODES_known. eauto.
  - intros [code Hcode]. destruct (decide (k ∈ enumeration)) as [|Hk]; [done|].
    by rewrite (CM_STATE_CODES_unknown k Hk) in Hcode.
Qed.

(** What a returned pair looks like. *)
Lemma main_status_returned (s : Service) (status : string) (code : Z) :
  main_status s = Return (status, code) →
  healthSummary s ∈ enumeration
  ∧ code ∈ [0; 2; 3]
  ∧ ∃ label,
      NAGIOS_CODE_MESSAGES !! code = Some label
      ∧ status =
          format_status label (name s) (healthSummary s) +:+
            (if not_good_nor_disabled (healthSummary s)
             then " - " +:+ join (format_check <$> failing (healthChecks s))
             else "").
Proof.
  intros Hret.
  destruct (decide (healthSummary s ∈ enumeration)) as [Hin|Hout].
  2: { by rewrite (main_status_unknown s Hout) in Hret. }
  split; [exact Hin|].
  destruct (decide (healthSummary s = "CONCERNING")) as [Hc|Hc].
  - rewrite (main_status_concerning s Hc) in Hret.
    injection Hret as <- <-. split; [by repeat constructor|].
    exists "OK". split; [reflexivity|]. rewrite Hc. simpl.
    unfold format_status. by rewrite !string_app_assoc.
  - destruct (CM_STATE_CODES_known _ Hin) as (code' & label & Hcode & Hlabel).
    rewrite (main_status_table s code' label Hc Hcode Hlabel) in Hret.
    injection Hret as <- <-. split.
    + apply CM_STATE_CODES_lookup in Hcode.
      rewrite !elem_of_cons, elem_of_nil in Hcode.
      destruct Hcode as [H|[H|[H|[H|[H|[H|[]]]]]]]; injection H as H ->;
        by repeat constructor.
    + exists label. split; [exact Hlabel|].
      destruct (not_good_nor_disabled (healthSummary s)); [reflexivity|].
      by rewrite string_app_nil_r.
Qed.

(** X9: the reduction returns a pair exactly when the summary of the
    service is one of the six values of the enumeration, whatever the
    health checks hold (also summaries outside the enumeration); otherwise
    what it raises is the [KeyError] of the service's summary. *)
Theorem main_status_returns_iff (s : Service) :
  (healthSummary s ∈ enumeration
   ↔ ∃ status code, main_status s = Return (status, code))
  ∧ ∀ e, main_status s = Raise e → e = KeyError (StrKey (healthSummary s)).
Proof.
  split; [split|].
  - intros Hin.
    destruct (decide (healthSummary s = "CONCERNING")) as [Hc|Hc].
    + rewrite (main_status_concerning s Hc). eauto.
    + destruct (CM_STATE_CODES_known _ Hin) as (code & label & Hcode & Hlabel).
      rewrite (main_status_table s code label Hc Hcode Hlabel). eauto.
  - intros (status & code & Hret).
    by destruct (main_status_returned s status code Hret).
  - intros e Hraise.
    destruct (decide (healthSummary s ∈ enumeration)) as [Hin|Hout].
    + destruct (decide (healthSummary s = "CONCERNING")) as [Hc|Hc].
      * by rewrite (main_status_concerning s Hc) in Hraise.
      * destruct (CM_STATE_CODES_known _ Hin) as (code & label & Hcode & Hlabel).
        by rewrite (main_status_table s code label Hc Hcode Hlabel) in Hraise.
    + rewrite (main_status_unknown s Hout) in Hraise. congruence.
Qed.

(** ** Runs: session, failures, exit codes *)


Lemma missing_credentials_default_port (args : Args) :
  missing_username (main_default_port args) = missing_username args
  ∧ missing_credentials (main_default_port args) = missing_credentials args.
Proof.
  unfold missing_credentials, missing_username, missing_password.
  by destruct (main_default_port_fields args) as (_ & -> & -> & _).
Qed.

Section Sessions.
Context {Srv Cluster : Type}.
Variable get_cluster : ApiResource → string → Srv → Result Cluster * Srv.
Variable get_service : Cluster → string → Srv → Result Service * Srv.

Implicit Types (args : Args) (w : World Srv) (s : Service).

Lemma main_returned args w status code w' :
  main get_cluster get_service args w = (Return (status, code), w') →
  ∃ s, main_fetch get_cluster get_service args w = (Return s, w')
       ∧ main_status s = Return (status, code).
Proof.
  unfold main, bind, lift.
  destruct (main_fetch get_cluster get_service args w) as [[s|e] w1];
    intros [= Hs ->]; eauto.
Qed.

Local Abbreviation main := (main get_cluster get_service).
Local Abbreviation main_fetch := (main_fetch get_cluster get_service).

(** X4: after a successful fetch the global session is the one built from
    the arguments: their host, API version and TLS flag, the port after
    defaulting (so never [None]), and as user and password the given ones
    when not empty, else the lines typed at the terminal. *)
Theorem main_fetch_session args w s w' :
  main_fetch args w = (Return s, w') →
  ∃ a, api w' = Some a
    ∧ server_host a = hostname args
    ∧ server_port a = port (main_default_port args)
    ∧ version a = api_version args
    ∧ api_use_tls a = use_tls args
    ∧ api_username a =
        (if truthy_opt_str (username args) then username args
         else stdin w !! 0%nat)
    ∧ api_password a =
        (if truthy_opt_str (password args) then password args
         else stdin w !! missing_username args)
    ∧ is_Some (server_port a)
    ∧ is_Some (api_username a) ∧ is_Some (api_password a).
Proof.
  rewrite main_fetch_cases, main_connect_cases.
  destruct (get_login_credentials _ _) as [[a|e] w1] eqn:Hcred; [|done].
  apply get_login_credentials_returned in Hcred. simpl in Hcred.
  destruct (main_default_port_fields args)
    as (Hh & Hu & Hp & Hv & Ht & _ & _).
  destruct (missing_credentials_default_port args) as [Hm _].
  rewrite Hu, Hp, Hm in Hcred.
  destruct Hcred as (Hu' & Hp' & Hsu & Hsp & Hh' & Hport & Hv' & Ht' & _).
  destruct (main_default_port_nonzero args) as (p & Hpp & _).
  intros Hfetch.
  assert (Hapi : api w' = Some (session_of a)).
  { destruct (get_cluster _ _ _) as [[c|e] srv]; [|done].
    destruct (get_service _ _ _) as [r srv']. by injection Hfetch as _ <-. }
  exists (session_of a). split; [exact Hapi|]. unfold session_of. simpl.
  rewrite <- Hu', <- Hp', Hh', Hport, Hv', Ht', Hh, Hv, Ht, Hpp.
  repeat split; eauto.
Qed.


(** X7: the exit code [main] returns is 0, 2 or 3; it never returns
    [EXIT_WARNING] (1), although the table holds it for ["CONCERNING"]. *)
Theorem main_never_warning args w status code w' :
  main args w = (Return (status, code), w') →
  code ∈ [EXIT_OK; EXIT_CRITICAL; EXIT_UNKNOWN] ∧ code ≠ EXIT_WARNING.
Proof.
  intros (s & _ & Hret)%main_returned.
  destruct (main_status_returned s status code Hret) as (_ & Hcode & _).
  split; [exact Hcode|].
  rewrite !elem_of_cons, elem_of_nil in Hcode.
  unfold EXIT_WARNING. lia.
Qed.

(** X8: the status [main] returns starts with the Nagios label of the exit
    code it returns, followed by [": "], the name of the service, [" is "]
    and the health summary of the service. *)
Theorem main_label_matches_code args w status code w' :
  main args w = (Return (status, code), w') →
  ∃ s label rest,
    main_fetch args w = (Return s, w')
    ∧ NAGIOS_CODE_MESSAGES !! code = Some label
    ∧ status = label +:+ ": " +:+ name s +:+ " is " +:+ healthSummary s +:+ rest.
Proof.
  intros (s & Hfetch & Hret)%main_returned.
  destruct (main_status_returned s status code Hret)
    as (_ & _ & label & Hlabel & ->).
  exists s, label. eexists. split; [exact Hfetch|]. split; [exact Hlabel|].
  unfold format_status. by rewrite !string_app_assoc.
Qed.

(** X10: with user and password given, an exception raised by
    [api.get_cluster] is the outcome of [main]: no pair is returned, the
    manager is left as that call left it (the service is not requested), the
    session is in place and only the advisory has been printed. *)
Theorem main_cluster_failure args w e srv :
  truthy_opt_str (username args) = true →
  truthy_opt_str (password args) = true →
  get_cluster (session_of (main_default_port args)) (cluster args) (server w)
    = (Raise e, srv) →
  main args w =
    (Raise e,
     mkWorld (stdin w) (stdout w ++ advisory args)
             (Some (session_of (main_default_port args))) srv).
Proof.
  intros Hu Hp Hfail. apply main_fetch_failed.
  rewrite main_fetch_cases, main_connect_cases, get_login_credentials_cases.
  destruct (main_default_port_fields args)
    as (_ & Hu' & Hp' & _ & _ & Hc' & _).
  rewrite Hu', Hp', Hu, Hp. simpl. by rewrite Hc', Hfail.
Qed.

(** X11: with user and password given and the cluster found, an exception
    raised by [get_service] is the outcome of [main]: no pair is returned
    and nothing but the advisory has been printed. *)
Theorem main_service_failure args w c srv e srv' :
  truthy_opt_str (username args) = true →
  truthy_opt_str (password args) = true →
  get_cluster (session_of (main_default_port args)) (cluster args) (server w)
    = (Return c, srv) →
  get_service c (service args) srv = (Raise e, srv') →
  main args w =
    (Raise e,
     mkWorld (stdin w) (stdout w ++ advisory args)
             (Some (session_of (main_default_port args))) srv').
Proof.
  intros Hu Hp Hc Hfail. apply main_fetch_failed.
  rewrite main_fetch_cases, main_connect_cases, get_login_credentials_cases.
  destruct (main_default_port_fields args)
    as (_ & Hu' & Hp' & _ & _ & Hc' & Hs').
  rewrite Hu', Hp', Hu, Hp. simpl. by rewrite Hc', Hc, Hs', Hfail.
Qed.
End Sessions.

(** ** Runs of the [__main__] block (lines 173-175) *)

Section ScriptRuns.
Context {Srv Cluster : Type}.
Variable get_cluster : ApiResource → string → Srv → Result Cluster * Srv.
Variable get_service : Cluster → string → Srv → Result Service * Srv.

Implicit Types (args : Args) (w : World Srv) (s : Service).


Local Abbreviation main := (main get_cluster get_service).
Local Abbreviation main_fetch := (main_fetch get_cluster get_service).
Local Abbreviation script := (script get_cluster get_service).



End ScriptRuns.

(** ** The further properties at concrete runs *)

Section MoreExamples.
Local Abbreviation gc := queue_get_cluster.
Local Abbreviation gs := queue_get_service.

(** X2 at a run: user and password typed at the two prompts. *)
Lemma get_login_credentials_result_witness :
  username (set_password "secret" (set_username "admin" example_args_prompt))
    = Some "admin"
  ∧ password (set_password "secret" (set_username "admin" example_args_prompt))
    = Some "secret"
  ∧ port (set_password "secret" (set_username "admin" example_args_prompt))
    = port example_args_prompt.
Proof.
  destruct (get_login_credentials_result example_args_prompt
              (set_password "secret" (set_username "admin" example_args_prompt))
              (typed_world ["admin"; "secret"] tt) (typed_world [] tt))
    as (Hu & Hp & _ & _ & _ & Hport & _).
  - reflexivity.
  - split; [exact Hu|]. split; [exact Hp | exact Hport].
Defined.

(** X4 at a run: the session after the two prompts. *)
Lemma main_fetch_session_witness :
  ∃ a, api example_after = Some a
    ∧ server_host a = "cm.example.com"
    ∧ server_port a = Some 7180
    ∧ api_username a = Some "admin"
    ∧ api_password a = Some "secret".
Proof.
  destruct (main_fetch_session gc gs example_args_prompt
              (typed_world ["admin"; "secret"] [hdfs "GOOD" hdfs_checks])
              (hdfs "GOOD" hdfs_checks) example_after)
    as (a & Ha & Hh & Hport & _ & _ & Hu & Hp & _).
  - reflexivity.
  - exists a. split; [exact Ha|]. split; [exact Hh|]. split; [exact Hport|].
    split; [exact Hu | exact Hp].
Defined.


(** X7 at a run: a CONCERNING service. *)
Lemma main_never_warning_witness :
  EXIT_OK ∈ [EXIT_OK; EXIT_CRITICAL; EXIT_UNKNOWN] ∧ EXIT_OK ≠ EXIT_WARNING.
Proof.
  apply (main_never_warning gc gs example_args
           (fresh_world [hdfs "CONCERNING" concerning_checks])
           "OK: hdfs is CONCERNING - HDFS_FREE_SPACE_MONITORING (CONCERNING) "
           EXIT_OK example_after).
  reflexivity.
Defined.

(** X8 at a run: a BAD service. *)
Lemma main_label_matches_code_witness :
  ∃ s label rest,
    queue_main_fetch example_args (fresh_world [hdfs "BAD" hdfs_checks])
      = (Return s, example_after)
    ∧ NAGIOS_CODE_MESSAGES !! 2 = Some label
    ∧ "CRITICAL: hdfs is BAD - DATANODES_HEALTHY (BAD) "
        = label +:+ ": " +:+ name s +:+ " is " +:+ healthSummary s +:+ rest.
Proof.
  apply (main_label_matches_code gc gs example_args
           (fresh_world [hdfs "BAD" hdfs_checks])
           "CRITICAL: hdfs is BAD - DATANODES_HEALTHY (BAD) " 2 example_after).
  reflexivity.
Defined.

(** X10 at a run: a cluster the manager does not know. *)
Lemma main_cluster_failure_witness :
  main strict_get_cluster gs (example_args_cluster "cluster2")
       (fresh_world [hdfs "GOOD" hdfs_checks])
  = (Raise (ApiException "cluster not found"),
     mkWorld [] [] (Some example_session) [hdfs "GOOD" hdfs_checks]).
Proof.
  apply (main_cluster_failure strict_get_cluster gs
           (example_args_cluster "cluster2")
           (fresh_world [hdfs "GOOD" hdfs_checks])
           (ApiException "cluster not found") [hdfs "GOOD" hdfs_checks]);
    reflexivity.
Defined.

(** X11 at a run: a manager with no answer for the service. *)
Lemma main_service_failure_witness :
  queue_main example_args (fresh_world [])
  = (Raise (ApiException "not found"), example_after).
Proof.
  apply (main_service_failure gc gs example_args (fresh_world [])
           "cluster1" [] (ApiException "not found") []);
    reflexivity.
Defined.



End MoreExamples.

(** ** What the pair depends on *)

Lemma failing_failing (check : list HealthCheck) :
  failing (failing check) = failing check.
Proof.
  unfold failing. induction check as [|chk check IH]; [reflexivity|].
  simpl. destruct (not_good_nor_disabled (chk_summary chk)) eqn:Hchk; simpl.
  - by rewrite Hchk, IH.
  - exact IH.
Qed.

Lemma append_checks_failing (status : string) (check : list HealthCheck) :
  append_checks status (failing check) = append_checks status check.
Proof. by rewrite !append_checks_join, failing_failing. Qed.

(** X15: the checks whose summary is ["GOOD"] or ["DISABLED"] have no
    effect on the outcome of the reduction: with them removed from the list
    it returns the same pair, or raises the same exception. *)
Theorem main_status_passing_checks_ignored (n summary : string)
    (check : list HealthCheck) :
  main_status (mkService n summary (failing check))
  = main_status (mkService n summary check).
Proof.
  unfold main_status. simpl.
  destruct (String.eqb summary "CONCERNING");
    destruct (not_good_nor_disabled summary); try reflexivity.
  - result_steps. unfold mret, Result_ret. result_steps.
    by rewrite !append_checks_failing.
  - destruct (getitem_str CM_STATE_CODES summary) as [c|e];
      result_steps; [|reflexivity].
    destruct (getitem_int NAGIOS_CODE_MESSAGES c) as [label|e];
      result_steps; [|reflexivity].
    unfold mret, Result_ret. result_steps.
    by rewrite !append_checks_failing.
Qed.

(** X16: the exit code is decided by the health summary alone: two
    services with the same summary, whatever their names and checks, get
    the same code. *)
Theorem main_status_code_by_summary (s s' : Service) (status : string)
    (code : Z) :
  healthSummary s = healthSummary s' →
  main_status s = Return (status, code) →
  ∃ status', main_status s' = Return (status', code).
Proof.
  intros Heq Hret.
  destruct (main_status_returned s status code Hret) as (Hin & _ & _).
  destruct (decide (healthSummary s = "CONCERNING")) as [Hc|Hc].
  - rewrite (main_status_concerning s Hc) in Hret.
    injection Hret as _ <-.
    rewrite Heq in Hc. rewrite (main_status_concerning s' Hc). eauto.
  - destruct (CM_STATE_CODES_known _ Hin) as (code' & label & Hcode & Hlabel).
    rewrite (main_status_table s code' label Hc Hcode Hlabel) in Hret.
    injection Hret as _ <-.
    rewrite Heq in Hc, Hcode.
    rewrite (main_status_table s' code' label Hc Hcode Hlabel). eauto.
Qed.

(** X16 at two services. *)
Lemma main_status_code_by_summary_witness :
  ∃ status',
    main_status (mkService "yarn" "BAD" good_checks) = Return (status', 2).
Proof.
  apply (main_status_code_by_summary (hdfs "BAD" hdfs_checks)
           (mkService "yarn" "BAD" good_checks)
           "CRITICAL: hdfs is BAD - DATANODES_HEALTHY (BAD) " 2);
    reflexivity.
Defined.

(** ** The block against the manager with a queue of answers *)


